(** * github_fetch: the tar prefix stripper and the fetch orchestration

    A shallow embedding of [lib/github_fetch/github_fetch.go].

    Go strings are byte sequences, so they are modelled by [string]
    (a list of 8-bit [ascii]).  A Go function returning [(v, error)] is
    modelled by a pair whose second component is an [option Error]
    ([None] is Go's [nil]); a function that can also dereference a nil
    pointer returns a [GoResult], which has a [Panic] case. *)

From Stdlib Require Import ZArith Ascii String Strings.Byte Lia.
From stdpp Require Import base list strings.

Open Scope string_scope.
Open Scope list_scope.

(** ** Errors *)

(** One constructor per [fmt.Errorf] site of the file; [ErrExternal] stands
    for the errors produced by the libraries (gzip, tar, http, go-github,
    dockerignore). *)
Inductive Error : Type :=
  | ErrExternal (msg : string)
  | ErrMatching (name : string)
  | ErrAbsolutePath (name : string)
  | ErrGettingDockerignore (cause : Error)
  | ErrGettingContent (cause : Error)
  | ErrParsingDockerignore (cause : Error)
  | ErrParsingFile (cause : Error)
  | ErrArchiveLink (cause : Error)
  | ErrArchiveLinkStatus (status : string)
  | ErrURLNil
  | ErrCreatingRequest (cause : Error)
  | ErrArchiveRequest (cause : Error)
  | ErrResponseNil
  | ErrArchiveStatus (code : Z).

(** ** The string functions of the Go library used by [processHeader] *)

Definition slash : ascii := "/"%char.

(** [path.IsAbs]: [len(path) > 0 && path[0] == '/']. *)
Definition IsAbs (p : string) : bool :=
  match p with
  | EmptyString => false
  | String c _ => Ascii.eqb c slash
  end.

(** [strings.Split(s, sep)] for a one-byte separator: the segments between
    the occurrences of [sep], in order; the result is never empty. *)
Fixpoint Split (s : string) (sep : ascii) : list string :=
  match s with
  | EmptyString => [EmptyString]
  | String c s' =>
      if Ascii.eqb c sep then EmptyString :: Split s' sep
      else match Split s' sep with
           | [] => [String c EmptyString]
           | seg :: segs => String c seg :: segs
           end
  end.

(** [strings.Join(elems, sep)]. *)
Fixpoint Join (elems : list string) (sep : string) : string :=
  match elems with
  | [] => EmptyString
  | [x] => x
  | x :: xs => x +:+ sep +:+ Join xs sep
  end.

(** ** Archive entries *)

(** The fields of [tar.Header] the transform reads or copies. *)
Record Header : Type := mkHeader {
  Name : string;
  Typeflag : ascii;
  Size : Z;
  Mode : Z
}.

Definition setName (h : Header) (n : string) : Header :=
  {| Name := n; Typeflag := Typeflag h; Size := Size h; Mode := Mode h |}.

(** What [tarball.Next()] and the following reads of the entry give: the
    header, the payload bytes read, and the error that ends the payload
    read ([None]: the payload was read to its end). *)
Record SrcEntry : Type := mkSrcEntry {
  hdr : Header;
  payload : list byte;
  read_err : option Error
}.

(** A decompressed tar stream as [tar.Reader] sees it: the entries that
    [Next] returns, then [io.EOF] ([ending = None]) or a decode error. *)
Record TarStream : Type := mkTarStream {
  entries : list SrcEntry;
  ending : option Error
}.

(** The source [io.ReadCloser]: [gzip.NewReader] fails on it, or it
    decompresses to a tar stream. *)
Inductive ReadCloser : Type :=
  | BadGzip (e : Error)
  | GzipTar (s : TarStream).

(** An entry of the output archive: the header written by [WriteHeader]
    and the payload bytes copied after it. *)
Record OutEntry : Type := mkOutEntry {
  ohdr : Header;
  opayload : list byte
}.

(** The outcomes of the output [tar.Writer], given what it has written so
    far: [tw_Write] fails after [n] bytes of the payload, or accepts it
    all. *)
Record TarWriter : Type := mkTarWriter {
  tw_WriteHeader : list OutEntry -> Header -> option Error;
  tw_Write : list OutEntry -> Header -> list byte -> option (nat * Error);
  tw_Flush : list OutEntry -> option Error
}.

(** The state shared by the producer and the consumer of one session: the
    entries written to the output, how often the tar writer, the pipe
    writer and the source were closed, and the error the pipe was closed
    with. *)
Record Session : Type := mkSession {
  emitted : list OutEntry;
  tw_closes : nat;
  pw_closes : nat;
  pw_error : option Error;
  src_closes : nat
}.

Definition newSession : Session :=
  {| emitted := []; tw_closes := 0; pw_closes := 0; pw_error := None;
     src_closes := 0 |}.

(** [t.pipeWriter.CloseWithError(e)]; the error of the first close stays.
    [pw_error] is the argument of the call as the producer passes it; what
    a reader of the pipe is given for it (io.EOF for nil) is not part of
    the model. *)
Definition pipe_CloseWithError (e : option Error) (st : Session) : Session :=
  {| emitted := emitted st;
     tw_closes := tw_closes st;
     pw_closes := S (pw_closes st);
     pw_error := if Nat.eqb (pw_closes st) 0 then e else pw_error st;
     src_closes := src_closes st |}.

(** [outTarball.Close()]. *)
Definition tar_Close (st : Session) : Session :=
  {| emitted := emitted st;
     tw_closes := S (tw_closes st);
     pw_closes := pw_closes st;
     pw_error := pw_error st;
     src_closes := src_closes st |}.

(** [t.tarball.Close()]. *)
Definition src_Close (st : Session) : Session :=
  {| emitted := emitted st;
     tw_closes := tw_closes st;
     pw_closes := pw_closes st;
     pw_error := pw_error st;
     src_closes := S (src_closes st) |}.

(** The [closeFunc] closure of [startStrippingPipe]. *)
Definition closeFunc (e : option Error) (st : Session) : Session :=
  src_Close (pipe_CloseWithError e (tar_Close st)).

Definition emit (o : OutEntry) (st : Session) : Session :=
  {| emitted := emitted st ++ [o];
     tw_closes := tw_closes st;
     pw_closes := pw_closes st;
     pw_error := pw_error st;
     src_closes := src_closes st |}.

(** [tarPrefixStripper]; the pipe is the [Session]. *)
Record tarPrefixStripper : Type := mkStripper {
  tarball : ReadCloser;
  excludes : list string
}.

Definition newTarPrefixStripper (tarball : ReadCloser) (excludes : list string)
  : tarPrefixStripper :=
  {| tarball := tarball; excludes := excludes |}.

(** The rename of [processHeader]:
    [strings.Join(spath[1:len(spath)], "/")] with
    [spath := strings.Split(h.Name, "/")]. *)
Definition stripPrefix (name : string) : string :=
  Join (drop 1 (Split name slash)) "/".

(** The test for the top-level directory entry:
    [len(spath) == 2 && spath[1] == ""]. *)
Definition isTopLevelDir (spath : list string) : bool :=
  match spath with
  | [_; second] => String.eqb second ""
  | _ => false
  end.

Section Stripper.

(** [fileutils.Matches] of the Docker library: a path and the exclusion
    patterns give a verdict and an error. *)
Variable Matches : string -> list string -> bool * option Error.

Definition shouldSkipDockerIgnoredFile (excludes : list string) (h : Header)
  : bool * option Error :=
  let '(matched, err) := Matches (Name h) excludes in
  match err with
  | Some _ => (false, Some (ErrMatching (Name h)))
  | None => (matched, None)
  end.

(** [processHeader] mutates the header it is given; the header after the
    call is returned with the (skip, error) pair. *)
Definition processHeader (excludes : list string) (h : Header)
  : Header * (bool * option Error) :=
  if String.eqb (Name h) "pax_global_header" then (h, (true, None))
  else if IsAbs (Name h) then (h, (true, Some (ErrAbsolutePath (Name h))))
  else
    let spath := Split (Name h) slash in
    if isTopLevelDir spath then (h, (true, None))
    else
      let h' := setName h (Join (drop 1 spath) "/") in
      (h', shouldSkipDockerIgnoredFile excludes h').

Variable tw : TarWriter.

(** [io.Copy(outTarball, tarball)]: the bytes written and the error. *)
Definition io_Copy (out : list OutEntry) (header : Header) (ent : SrcEntry)
  : list byte * option Error :=
  match tw_Write tw out header (payload ent) with
  | Some (n, e) => (take n (payload ent), Some e)
  | None => (payload ent, read_err ent)
  end.

(** The [for] loop of [startStrippingPipe], one iteration per entry that
    [tarball.Next()] returns. *)
Fixpoint strippingLoop (excludes : list string) (ents : list SrcEntry)
    (ending : option Error) (st : Session) : Session :=
  match ents with
  | [] => closeFunc ending st
  | ent :: rest =>
      let '(header, (skip, err)) := processHeader excludes (hdr ent) in
      match err with
      | Some e => closeFunc (Some e) st
      | None =>
          if skip then strippingLoop excludes rest ending st
          else
            match tw_WriteHeader tw (emitted st) header with
            | Some e => closeFunc (Some e) st
            | None =>
                let '(written, cerr) := io_Copy (emitted st) header ent in
                let st' := emit (mkOutEntry header written) st in
                match cerr with
                | Some e => closeFunc (Some e) st'
                | None =>
                    match tw_Flush tw (emitted st') with
                    | Some e => closeFunc (Some e) st'
                    | None => strippingLoop excludes rest ending st'
                    end
                end
            end
      end
  end.

Definition startStrippingPipe (t : tarPrefixStripper) : Session :=
  match tarball t with
  | BadGzip err => pipe_CloseWithError (Some err) newSession
  | GzipTar s =>
      strippingLoop (excludes t) (entries s) (ending s) newSession
  end.

End Stripper.

(** ** The fetch orchestration *)

Inductive GoResult (A : Type) : Type :=
  | Return (v : A)
  | Fail (e : Error)
  | Panic.
Arguments Return {A} v.
Arguments Fail {A} e.
Arguments Panic {A}.

Definition dockerIgnorePath : string := ".dockerignore".

Record Response : Type := mkResponse {
  StatusCode : Z;
  Status : string;
  Body : ReadCloser
}.

(** [*github.RepositoryContent]: what its [GetContent()] returns. *)
Record RepositoryContent : Type := mkRepositoryContent {
  GetContent : string * option Error
}.

(** The remote calls of [Get]: the two go-github calls, the dockerignore
    parser and the http client, each with the values it returns (a
    pointer is an [option], [None] for nil). *)
Record Remote : Type := mkRemote {
  GetContents : string -> string -> string -> string ->
                option RepositoryContent * option Response * option Error;
  ReadAll : string -> list string * option Error;
  GetArchiveLink : string -> string -> string ->
                   option string * option Response * option Error;
  NewRequest : string -> string -> option Error;
  Do : string -> option Response * option Error
}.

Section Fetcher.

Variable gh : Remote.

Definition parseDockerIgnoreIfExists (owner repo ref : string)
  : GoResult (list string) :=
  let '(fc, resp, err) := GetContents gh owner repo dockerIgnorePath ref in
  match err with
  | Some e =>
      match resp with
      | None => Panic
      | Some r =>
          if (StatusCode r =? 404)%Z then Return []
          else Fail (ErrGettingDockerignore e)
      end
  | None =>
      match fc with
      | None => Panic
      | Some c =>
          let '(content, err) := GetContent c in
          match err with
          | Some e => Fail (ErrGettingContent e)
          | None =>
              let '(excludes, err) := ReadAll gh content in
              match err with
              | Some e => Fail (ErrParsingDockerignore e)
              | None => Return excludes
              end
          end
      end
  end.

Definition getArchive (archiveURL : string) (excludes : list string)
  : GoResult tarPrefixStripper :=
  match NewRequest gh "GET" archiveURL with
  | Some e => Fail (ErrCreatingRequest e)
  | None =>
      let '(resp, err) := Do gh archiveURL in
      match err with
      | Some e => Fail (ErrArchiveRequest e)
      | None =>
          match resp with
          | None => Fail ErrResponseNil
          | Some r =>
              if (299 <? StatusCode r)%Z
              then Fail (ErrArchiveStatus (StatusCode r))
              else Return (newTarPrefixStripper (Body r) excludes)
          end
      end
  end.

(** The part of [Get] after the exclusion patterns are known. *)
Definition getWithExcludes (owner repo ref : string)
    (excludes : list string) : GoResult tarPrefixStripper :=
  let '(url, resp, err) := GetArchiveLink gh owner repo ref in
  match err with
  | Some e => Fail (ErrArchiveLink e)
  | None =>
      match resp with
      | None => Panic
      | Some r =>
          if (399 <? StatusCode r)%Z
          then Fail (ErrArchiveLinkStatus (Status r))
          else match url with
               | None => Fail ErrURLNil
               | Some u => getArchive u excludes
               end
      end
  end.

Definition Get (owner repo ref : string) : GoResult tarPrefixStripper :=
  match parseDockerIgnoreIfExists owner repo ref with
  | Return excludes => getWithExcludes owner repo ref excludes
  | Fail e => Fail (ErrParsingFile e)
  | Panic => Panic
  end.

End Fetcher.


(** ** Vocabulary of the properties *)

(** The name contains the path-segment delimiter. *)
Fixpoint hasSlash (s : string) : bool :=
  match s with
  | EmptyString => false
  | String c s' => Ascii.eqb c slash || hasSlash s'
  end.

(** The specification's rename, to be compared with [stripPrefix]: the name
    with its first slash-delimited segment (and the delimiter that ends it)
    removed. *)
Fixpoint removeFirstSegment (s : string) : string :=
  match s with
  | EmptyString => EmptyString
  | String c s' => if Ascii.eqb c slash then s' else removeFirstSegment s'
  end.

(** The metadata and synthetic entries: the pseudo-metadata header and the
    bare top-level directory. *)
Definition isMetadata (h : Header) : bool :=
  String.eqb (Name h) "pax_global_header"
  || isTopLevelDir (Split (Name h) slash).

Definition countIf {A : Type} (p : A -> bool) (l : list A) : nat :=
  List.length (List.filter p l).

Definition isNone {A : Type} (o : option A) : bool :=
  match o with None => true | Some _ => false end.

Section Vocabulary.

Variable Matches : string -> list string -> bool * option Error.
Variable excl : list string.

(** The entry reaches the rename and its new name matches the patterns. *)
Definition isExcluded (h : Header) : bool :=
  negb (isMetadata h) && fst (Matches (stripPrefix (Name h)) excl).

(** The entry is neither metadata nor excluded. *)
Definition isKept (h : Header) : bool :=
  negb (isMetadata h) && negb (fst (Matches (stripPrefix (Name h)) excl)).

(** A well-formed entry: its payload reads to the end, its name is not
    absolute, and the matcher gives a verdict on its new name. *)
Definition wellFormedEntry (e : SrcEntry) : bool :=
  isNone (read_err e)
  && negb (IsAbs (Name (hdr e)))
  && isNone (snd (Matches (stripPrefix (Name (hdr e))) excl)).

(** A well-formed archive: well-formed entries, then a clean end. *)
Definition wellFormed (s : TarStream) : bool :=
  forallb wellFormedEntry (entries s) && isNone (ending s).

(** The output entry of a source entry that is written in full. *)
Definition outputOf (e : SrcEntry) : OutEntry :=
  mkOutEntry (setName (hdr e) (stripPrefix (Name (hdr e)))) (payload e).

(** The output entry [o] was written for the source entry [s]:
    [processHeader] let [s] pass and renamed its header to the header of
    [o], and the payload of [o] was copied from the payload of [s]. *)
Definition emits (s : SrcEntry) (o : OutEntry) : Prop :=
  processHeader Matches excl (hdr s) = (ohdr o, (false, None))
  /\ opayload o `prefix_of` payload s.

End Vocabulary.

(** A tar writer that accepts every write. *)
Definition healthy (tw : TarWriter) : Prop :=
  (forall out h, tw_WriteHeader tw out h = None)
  /\ (forall out h bs, tw_Write tw out h bs = None)
  /\ (forall out, tw_Flush tw out = None).

(** ** Instances used to run the model *)

(** A writer whose writes all succeed. *)
Definition idealWriter : TarWriter :=
  {| tw_WriteHeader := fun _ _ => None;
     tw_Write := fun _ _ _ => None;
     tw_Flush := fun _ => None |}.

(** A stand-in for the Docker matcher: the pattern ["["] is malformed, and
    a path matches when it is listed among the patterns. *)
Definition listMatcher (file : string) (patterns : list string)
  : bool * option Error :=
  if existsb (String.eqb "[") patterns
  then (false, Some (ErrExternal "syntax error in pattern"))
  else (existsb (String.eqb file) patterns, None).

Definition fileHeader (name : string) : Header :=
  {| Name := name; Typeflag := "0"%char; Size := 0; Mode := 420 |}.

Definition fileEntry (name : string) : SrcEntry :=
  {| hdr := fileHeader name; payload := []; read_err := None |}.

Definition run (excl : list string) (src : ReadCloser) : Session :=
  startStrippingPipe listMatcher idealWriter (newTarPrefixStripper src excl).

(** The entries of the source, none when it is not a gzip stream. *)
Definition sourceEntries (r : ReadCloser) : list SrcEntry :=
  match r with
  | BadGzip _ => []
  | GzipTar s => entries s
  end.

(** The session after the entries [outs] were written one after another. *)
Definition emitAll (outs : list OutEntry) (st : Session) : Session :=
  fold_left (fun st o => emit o st) outs st.

(** The writer accepts the header [h] and the payload of [ent] in the
    state [st], and the payload of [ent] reads to its end. *)
Definition acceptsEntry (tw : TarWriter) (st : Session) (h : Header)
    (ent : SrcEntry) : Prop :=
  tw_WriteHeader tw (emitted st) h = None
  /\ tw_Write tw (emitted st) h (payload ent) = None
  /\ read_err ent = None
  /\ tw_Flush tw (emitted st ++ [mkOutEntry h (payload ent)]) = None.

(** A remote whose ignore file is absent: the get-file-content call
    returns an error with a 404 response. *)
Definition remoteWithoutIgnoreFile (archive : ReadCloser) : Remote :=
  {| GetContents := fun _ _ _ _ =>
       (None, Some (mkResponse 404 "404 Not Found" (BadGzip (ErrExternal "EOF"))),
        Some (ErrExternal "404 Not Found"));
     ReadAll := fun _ => ([], None);
     GetArchiveLink := fun _ _ _ =>
       (Some "https://codeload.example/tarball",
        Some (mkResponse 302 "302 Found" (BadGzip (ErrExternal "EOF"))), None);
     NewRequest := fun _ _ => None;
     Do := fun _ => (Some (mkResponse 200 "200 OK" archive), None) |}.

(** A remote that cannot be reached: the get-file-content call returns an
    error and no response. *)
Definition remoteUnreachable : Remote :=
  {| GetContents := fun _ _ _ _ =>
       (None, None, Some (ErrExternal "dial tcp: i/o timeout"));
     ReadAll := fun _ => ([], None);
     GetArchiveLink := fun _ _ _ =>
       (None, None, Some (ErrExternal "dial tcp: i/o timeout"));
     NewRequest := fun _ _ => None;
     Do := fun _ => (None, Some (ErrExternal "dial tcp: i/o timeout")) |}.

(** The whole output of an archive: the output entries of its kept
    entries, in order. *)
Definition fullOutput (Matches : string -> list string -> bool * option Error)
    (excl : list string) (ents : list SrcEntry) : list OutEntry :=
  map outputOf (List.filter (fun e => isKept Matches excl (hdr e)) ents).

(** The output entry [o] is the output entry [f] or a truncation of it:
    the same header and the first bytes of the payload. *)
Definition truncates (f o : OutEntry) : Prop :=
  ohdr o = ohdr f /\ opayload o `prefix_of` opayload f.

(** [tarPrefixStripper] seen from its reader: the [strippingStarted] flag
    and the number of [go t.startStrippingPipe()] statements run so far. *)
Record LazyStripper : Type := mkLazyStripper {
  stripper : tarPrefixStripper;
  strippingStarted : bool;
  producers : nat
}.

Definition newLazyStripper (tarball : ReadCloser) (excludes : list string)
  : LazyStripper :=
  {| stripper := newTarPrefixStripper tarball excludes;
     strippingStarted := false;
     producers := 0 |}.

(** The state change of [Read]: the producer is started when the flag is
    not set, and the flag is set. *)
Definition Read (t : LazyStripper) : LazyStripper :=
  if strippingStarted t then t
  else {| stripper := stripper t;
          strippingStarted := true;
          producers := S (producers t) |}.

(** A remote whose ignore-file call fails with the given status. *)
Definition remoteIgnoreFileStatus (code : Z) (archive : ReadCloser) : Remote :=
  {| GetContents := fun _ _ _ _ =>
       (None, Some (mkResponse code "error" (BadGzip (ErrExternal "EOF"))),
        Some (ErrExternal "unexpected status"));
     ReadAll := fun _ => ([], None);
     GetArchiveLink := fun _ _ _ =>
       (Some "https://codeload.example/tarball",
        Some (mkResponse 302 "302 Found" (BadGzip (ErrExternal "EOF"))), None);
     NewRequest := fun _ _ => None;
     Do := fun _ => (Some (mkResponse 200 "200 OK" archive), None) |}.

(** A remote with an ignore file of one line, parsed to one pattern. *)
Definition remoteWithIgnoreFile (archive : ReadCloser) : Remote :=
  {| GetContents := fun _ _ _ _ =>
       (Some (mkRepositoryContent ("*.log", None)),
        Some (mkResponse 200 "200 OK" (BadGzip (ErrExternal "EOF"))), None);
     ReadAll := fun content => ([content], None);
     GetArchiveLink := fun _ _ _ =>
       (Some "https://codeload.example/tarball",
        Some (mkResponse 302 "302 Found" (BadGzip (ErrExternal "EOF"))), None);
     NewRequest := fun _ _ => None;
     Do := fun _ => (Some (mkResponse 200 "200 OK" archive), None) |}.

(** ** The specification's view of an archive *)

(** The specification's bare top-level directory, to be compared with the
    test of [processHeader]: one segment and the delimiter that ends it,
    with nothing after. *)
Fixpoint isBareTopDir (s : string) : bool :=
  match s with
  | EmptyString => false
  | String c s' =>
      if Ascii.eqb c slash then String.eqb s' "" else isBareTopDir s'
  end.

(** The specification's metadata and synthetic entries: the pseudo-metadata
    header named [pax_global_header] and the bare top-level directory. *)
Definition isSynthetic (h : Header) : bool :=
  String.eqb (Name h) "pax_global_header" || isBareTopDir (Name h).

(** The output entry the specification expects for a source entry: the
    name without its first segment, everything else as it was. *)
Definition expectedEntry (e : SrcEntry) : OutEntry :=
  mkOutEntry (setName (hdr e) (removeFirstSegment (Name (hdr e)))) (payload e).

Section Expected.

Variable Matches : string -> list string -> bool * option Error.
Variable excl : list string.

(** The entry is renamed and its new name matches the patterns. *)
Definition matchesExclusion (h : Header) : bool :=
  negb (isSynthetic h) && fst (Matches (removeFirstSegment (Name h)) excl).

(** The entry is renamed and its new name does not match the patterns. *)
Definition survives (h : Header) : bool :=
  negb (isSynthetic h)
  && negb (fst (Matches (removeFirstSegment (Name h)) excl)).

(** The output the specification expects: the surviving entries, in order. *)
Definition expectedOutput (ents : list SrcEntry) : list OutEntry :=
  map expectedEntry (List.filter (fun e => survives (hdr e)) ents).

(** A well-formed source entry: its payload reads to the end, its name is
    not absolute and, when it is renamed, the matcher gives a verdict on
    its new name. *)
Definition wellFormedSource (e : SrcEntry) : bool :=
  isNone (read_err e)
  && negb (IsAbs (Name (hdr e)))
  && (isSynthetic (hdr e)
      || isNone (snd (Matches (removeFirstSegment (Name (hdr e))) excl))).

Definition wellFormedArchive (s : TarStream) : bool :=
  forallb wellFormedSource (entries s) && isNone (ending s).

End Expected.

(** The writer accepts the writes of the entries [todo], one after
    another, after it has written [written]. *)
Fixpoint acceptsOutput (tw : TarWriter) (written todo : list OutEntry) : Prop :=
  match todo with
  | [] => True
  | o :: rest =>
      tw_WriteHeader tw written (ohdr o) = None
      /\ tw_Write tw written (ohdr o) (opayload o) = None
      /\ tw_Flush tw (written ++ [o]) = None
      /\ acceptsOutput tw (written ++ [o]) rest
  end.

(** ** The string functions *)

Lemma Split_nonempty s sep : Split s sep <> [].
Proof.
  induction s as [|c s IH]; simpl; [done|].
  destruct (Ascii.eqb c sep); [done|].
  destruct (Split s sep); done.
Qed.

Lemma Split_noslash s : hasSlash s = false -> Split s slash = [s].
Proof.
  induction s as [|c s IH]; simpl; [done|].
  intros [Hc Hs]%orb_false_iff. rewrite Hc, (IH Hs). done.
Qed.

Lemma Split_segment seg rest :
  hasSlash seg = false ->
  Split (seg +:+ String slash rest) slash = seg :: Split rest slash.
Proof.
  induction seg as [|c seg IH]; simpl; [done|].
  intros [Hc Hs]%orb_false_iff. rewrite Hc, (IH Hs). done.
Qed.

Lemma first_segment s :
  hasSlash s = true ->
  exists seg rest, s = seg +:+ String slash rest /\ hasSlash seg = false.
Proof.
  induction s as [|c s IH]; simpl; [done|].
  destruct (Ascii.eqb c slash) eqn:Hc; simpl.
  - intros _. apply Ascii.eqb_eq in Hc as ->. by exists EmptyString, s.
  - intros (seg & rest & -> & Hseg)%IH.
    exists (String c seg), rest. simpl. by rewrite Hc.
Qed.

Lemma Join_Split s : Join (Split s slash) "/" = s.
Proof.
  induction s as [|c s IH]; simpl; [done|].
  destruct (Ascii.eqb c slash) eqn:Hc.
  - apply Ascii.eqb_eq in Hc as ->.
    pose proof (Split_nonempty s slash).
    destruct (Split s slash) as [|x xs]; [done|].
    change (Join (EmptyString :: x :: xs) "/")
      with (String slash (Join (x :: xs) "/")).
    by rewrite IH.
  - pose proof (Split_nonempty s slash).
    destruct (Split s slash) as [|x xs]; [done|].
    destruct xs as [|y ys]; simpl in *; by rewrite <- IH.
Qed.

Lemma stripPrefix_segment seg rest :
  hasSlash seg = false -> stripPrefix (seg +:+ String slash rest) = rest.
Proof.
  intros Hseg. unfold stripPrefix.
  rewrite (Split_segment _ _ Hseg). simpl. apply Join_Split.
Qed.

Lemma stripPrefix_noslash s : hasSlash s = false -> stripPrefix s = "".
Proof. intros Hs. unfold stripPrefix. by rewrite (Split_noslash _ Hs). Qed.

Lemma removeFirstSegment_segment seg rest :
  hasSlash seg = false -> removeFirstSegment (seg +:+ String slash rest) = rest.
Proof.
  induction seg as [|c seg IH]; simpl; [done|].
  intros [Hc Hs]%orb_false_iff. rewrite Hc. auto.
Qed.

Lemma removeFirstSegment_noslash s :
  hasSlash s = false -> removeFirstSegment s = "".
Proof.
  induction s as [|c s IH]; simpl; [done|].
  intros [Hc Hs]%orb_false_iff. rewrite Hc. auto.
Qed.

Lemma stripPrefix_removeFirstSegment s : stripPrefix s = removeFirstSegment s.
Proof.
  destruct (hasSlash s) eqn:Hs.
  - destruct (first_segment _ Hs) as (seg & rest & -> & Hseg).
    by rewrite stripPrefix_segment, removeFirstSegment_segment.
  - by rewrite stripPrefix_noslash, removeFirstSegment_noslash.
Qed.

(** ** [processHeader] *)

Section StripperFacts.

Variable Matches : string -> list string -> bool * option Error.
Variable tw : TarWriter.
Variable excl : list string.

Lemma processHeader_metadata h :
  isMetadata h = true -> IsAbs (Name h) = false ->
  processHeader Matches excl h = (h, (true, None)).
Proof.
  unfold isMetadata, processHeader. intros Hm Ha.
  destruct (String.eqb (Name h) "pax_global_header"); [done|].
  simpl in Hm. by rewrite Ha, Hm.
Qed.

Lemma processHeader_absolute h :
  IsAbs (Name h) = true ->
  processHeader Matches excl h = (h, (true, Some (ErrAbsolutePath (Name h)))).
Proof.
  unfold processHeader. intros Ha.
  destruct (String.eqb (Name h) "pax_global_header") eqn:Hp.
  - apply String.eqb_eq in Hp. rewrite Hp in Ha. done.
  - by rewrite Ha.
Qed.

Lemma processHeader_renamed h :
  isMetadata h = false -> IsAbs (Name h) = false ->
  processHeader Matches excl h =
    (setName h (stripPrefix (Name h)),
     shouldSkipDockerIgnoredFile Matches excl
       (setName h (stripPrefix (Name h)))).
Proof.
  unfold isMetadata, processHeader.
  intros [Hp Ht]%orb_false_iff Ha. by rewrite Hp, Ha, Ht.
Qed.

Lemma shouldSkip_verdict h b :
  Matches (Name h) excl = (b, None) ->
  shouldSkipDockerIgnoredFile Matches excl h = (b, None).
Proof. unfold shouldSkipDockerIgnoredFile. by intros ->. Qed.

Lemma shouldSkip_pass h :
  shouldSkipDockerIgnoredFile Matches excl h = (false, None) ->
  Matches (Name h) excl = (false, None).
Proof.
  unfold shouldSkipDockerIgnoredFile.
  destruct (Matches (Name h) excl) as [b [e|]]; [done|]. by intros [= ->].
Qed.

(** What is known of a header that [processHeader] lets pass. *)
Lemma processHeader_pass h h' :
  processHeader Matches excl h = (h', (false, None)) ->
  isMetadata h = false /\ IsAbs (Name h) = false
  /\ h' = setName h (stripPrefix (Name h))
  /\ Matches (stripPrefix (Name h)) excl = (false, None).
Proof.
  intros Hp.
  destruct (IsAbs (Name h)) eqn:Ha.
  { by rewrite (processHeader_absolute _ Ha) in Hp. }
  destruct (isMetadata h) eqn:Hm.
  { by rewrite (processHeader_metadata _ Hm Ha) in Hp. }
  rewrite (processHeader_renamed _ Hm Ha) in Hp.
  injection Hp as <- Hs. apply shouldSkip_pass in Hs. done.
Qed.

(** ** The loop *)

Lemma emitted_closeFunc e st : emitted (closeFunc e st) = emitted st.
Proof. done. Qed.

Lemma io_Copy_prefix out header ent written cerr :
  io_Copy tw out header ent = (written, cerr) ->
  written `prefix_of` payload ent.
Proof.
  unfold io_Copy. destruct (tw_Write tw out header (payload ent)) as [[n e]|].
  - intros [= <- _]. apply prefix_take.
  - by intros [= <- _].
Qed.

(** The entries written by the loop come, in order, from a sub-sequence of
    the source entries. *)
Lemma strippingLoop_trace ents ending st :
  exists kept outs,
    kept `sublist_of` ents
    /\ emitted (strippingLoop Matches tw excl ents ending st)
       = emitted st ++ outs
    /\ Forall2 (emits Matches excl) kept outs.
Proof.
  revert st. induction ents as [|ent rest IH]; intros st; simpl.
  { exists [], []. by rewrite app_nil_r. }
  assert (Hstop : forall e st0 outs0 kept0,
    kept0 `sublist_of` ent :: rest ->
    emitted st0 = emitted st ++ outs0 ->
    Forall2 (emits Matches excl) kept0 outs0 ->
    exists kept outs,
      kept `sublist_of` ent :: rest
      /\ emitted (closeFunc e st0) = emitted st ++ outs
      /\ Forall2 (emits Matches excl) kept outs).
  { intros e st0 outs0 kept0 ???. by exists kept0, outs0. }
  destruct (processHeader Matches excl (hdr ent)) as [header [skip err]] eqn:Hp.
  destruct err as [e|].
  { apply (Hstop _ st [] []); [apply sublist_nil_l|by rewrite app_nil_r|done]. }
  destruct skip.
  { destruct (IH st) as (kept & outs & ? & ? & ?).
    exists kept, outs. split; [by apply sublist_cons|done]. }
  destruct (tw_WriteHeader tw (emitted st) header) as [e|].
  { apply (Hstop _ st [] []); [apply sublist_nil_l|by rewrite app_nil_r|done]. }
  destruct (io_Copy tw (emitted st) header ent) as [written cerr] eqn:Hc.
  assert (Hem : emits Matches excl ent (mkOutEntry header written)).
  { split; [done|]. simpl. by eapply io_Copy_prefix. }
  assert (H1 : [ent] `sublist_of` ent :: rest).
  { apply sublist_skip, sublist_nil_l. }
  destruct cerr as [e|].
  { apply (Hstop _ _ [mkOutEntry header written] [ent]); [done|done|].
    by constructor. }
  destruct (tw_Flush tw _) as [e|].
  { apply (Hstop _ _ [mkOutEntry header written] [ent]); [done|done|].
    by constructor. }
  destruct (IH (emit (mkOutEntry header written) st))
    as (kept & outs & ? & Heq & ?).
  exists (ent :: kept), (mkOutEntry header written :: outs).
  split; [by apply sublist_skip|]. split; [|by constructor].
  rewrite Heq. simpl. by rewrite <- app_assoc.
Qed.

End StripperFacts.

(** ** Names of the emitted entries *)

Lemma IsAbs_hasSlash s : IsAbs s = true -> hasSlash s = true.
Proof. destruct s as [|c s]; simpl; [done|]. by intros ->. Qed.

Lemma isTopLevelDir_noslash s :
  hasSlash s = false -> isTopLevelDir (Split s slash) = false.
Proof. intros Hs. by rewrite (Split_noslash _ Hs). Qed.

(** Every emitted entry was written for a source entry. *)
Lemma emitted_from_source Matches tw t o :
  o ∈ emitted (startStrippingPipe Matches tw t) ->
  exists src, src ∈ sourceEntries (tarball t)
              /\ emits Matches (excludes t) src o.
Proof.
  unfold startStrippingPipe. destruct (tarball t) as [e|s]; simpl.
  { intros H. by apply elem_of_nil in H. }
  destruct (strippingLoop_trace Matches tw (excludes t) (entries s) (ending s)
              newSession) as (kept & outs & Hsub & -> & HF).
  simpl. intros Ho. clear -Ho Hsub HF.
  apply sublist_subseteq in Hsub.
  induction HF as [|src o' kept outs Hem HF IH].
  { by apply elem_of_nil in Ho. }
  apply elem_of_cons in Ho as [->|Ho].
  - exists src. split; [apply Hsub; left|done].
  - apply IH; [|done]. intros x Hx. apply Hsub. by right.
Qed.

(** C1: for every entry emitted by the transform there is a source entry
    such that the emitted name is the source name with exactly its first
    slash-delimited segment removed: the source name is [seg/emitted] with
    no slash in [seg], or it is a single segment and the emitted name is
    empty.  The rename of the code agrees with the specification's
    [removeFirstSegment]. *)
Theorem C1_emitted_name_drops_first_segment Matches tw t o :
  o ∈ emitted (startStrippingPipe Matches tw t) ->
  exists src seg,
    src ∈ sourceEntries (tarball t)
    /\ Name (ohdr o) = removeFirstSegment (Name (hdr src))
    /\ hasSlash seg = false
    /\ (Name (hdr src) = seg +:+ "/" +:+ Name (ohdr o)
        \/ (Name (hdr src) = seg /\ Name (ohdr o) = "")).
Proof.
  intros (src & Hin & Hp & _)%emitted_from_source.
  apply processHeader_pass in Hp as (_ & _ & Hh & _).
  assert (Hn : Name (ohdr o) = stripPrefix (Name (hdr src))) by by rewrite Hh.
  destruct (hasSlash (Name (hdr src))) eqn:Hs.
  - destruct (first_segment _ Hs) as (seg & rest & Heq & Hseg).
    exists src, seg. rewrite Hn, stripPrefix_removeFirstSegment.
    split; [done|]. split; [done|]. split; [done|]. left.
    rewrite Heq at 1. by rewrite Heq, removeFirstSegment_segment.
  - exists src, (Name (hdr src)).
    rewrite Hn, stripPrefix_removeFirstSegment.
    split; [done|]. split; [done|]. split; [done|]. right.
    split; [done|]. by apply removeFirstSegment_noslash.
Qed.

Lemma C1_witness :
  exists src seg,
    src ∈ [fileEntry "reponame-abc123/subdir/file.go"]
    /\ "subdir/file.go" = removeFirstSegment (Name (hdr src))
    /\ hasSlash seg = false
    /\ (Name (hdr src) = seg +:+ "/" +:+ "subdir/file.go"
        \/ (Name (hdr src) = seg /\ "subdir/file.go" = "")).
Proof.
  apply (C1_emitted_name_drops_first_segment listMatcher idealWriter
    (newTarPrefixStripper
       (GzipTar (mkTarStream [fileEntry "reponame-abc123/subdir/file.go"] None))
       [])
    (mkOutEntry (fileHeader "subdir/file.go") [])).
  vm_compute. apply list_elem_of_here.
Defined.

(** C7: the emitted entries are written, one for one and in order, for a
    sub-sequence of the source entries: nothing is reordered, duplicated
    or inserted. *)
Theorem C7_output_is_subsequence Matches tw t :
  exists kept,
    kept `sublist_of` sourceEntries (tarball t)
    /\ Forall2 (emits Matches (excludes t)) kept
         (emitted (startStrippingPipe Matches tw t)).
Proof.
  unfold startStrippingPipe. destruct (tarball t) as [e|s]; simpl.
  { exists []. split; [done|constructor]. }
  destruct (strippingLoop_trace Matches tw (excludes t) (entries s) (ending s)
              newSession) as (kept & outs & Hsub & -> & HF).
  by exists kept.
Qed.

(** C2 (evaluation at the failing input): an entry whose name has an empty
    second segment is not absolute, passes the guard, and is emitted under
    an absolute name when the patterns do not match it. *)
Theorem C2_absolute_name_emitted Matches tw :
  healthy tw ->
  Matches "/etc/passwd" [] = (false, None) ->
  let s := startStrippingPipe Matches tw
             (newTarPrefixStripper
                (GzipTar (mkTarStream [fileEntry "repo//etc/passwd"] None)) []) in
  IsAbs (Name (hdr (fileEntry "repo//etc/passwd"))) = false
  /\ emitted s = [mkOutEntry (fileHeader "/etc/passwd") []]
  /\ IsAbs "/etc/passwd" = true
  /\ pw_error s = None.
Proof.
  intros (Hh & Hw & Hf) HM. cbv zeta.
  assert (Hp : processHeader Matches [] (hdr (fileEntry "repo//etc/passwd"))
               = (fileHeader "/etc/passwd", (false, None))).
  { rewrite processHeader_renamed by done.
    change (stripPrefix (Name (hdr (fileEntry "repo//etc/passwd"))))
      with "/etc/passwd".
    by erewrite shouldSkip_verdict. }
  unfold startStrippingPipe, newTarPrefixStripper, strippingLoop, io_Copy.
  cbn [tarball excludes entries ending].
  rewrite Hp. cbn [emitted newSession emit payload fileEntry app].
  by rewrite Hh, Hw, Hf.
Qed.

Lemma C2_witness :
  let s := run [] (GzipTar (mkTarStream [fileEntry "repo//etc/passwd"] None)) in
  IsAbs (Name (hdr (fileEntry "repo//etc/passwd"))) = false
  /\ emitted s = [mkOutEntry (fileHeader "/etc/passwd") []]
  /\ IsAbs "/etc/passwd" = true
  /\ pw_error s = None.
Proof.
  apply (C2_absolute_name_emitted listMatcher idealWriter).
  - repeat split.
  - reflexivity.
Defined.

(** ** Names without a delimiter *)

(** C6 (as stated, refuted): the rename does not leave a name without a
    delimiter unchanged. *)
Lemma C6_counterexample :
  ~ (forall h : Header,
       hasSlash (Name h) = false ->
       Name h <> "pax_global_header" ->
       IsAbs (Name h) = false ->
       Name (fst (processHeader listMatcher [] h)) = Name h).
Proof.
  intros H. specialize (H (fileHeader "README")). simpl in H.
  discriminate H; done.
Qed.

(** C6 (amended): for an entry whose name has no delimiter and is not the
    pseudo-metadata header, the rename replaces the name by the empty
    string; the rename raises no error, and the entry goes to the
    exclusion test under the empty name. *)
Theorem C6_no_delimiter_renamed_to_empty Matches excl h :
  hasSlash (Name h) = false ->
  Name h <> "pax_global_header" ->
  stripPrefix (Name h) = ""
  /\ processHeader Matches excl h
     = (setName h "", shouldSkipDockerIgnoredFile Matches excl (setName h ""))
  /\ (snd (Matches "" excl) = None ->
      snd (snd (processHeader Matches excl h)) = None).
Proof.
  intros Hs Hp.
  assert (Ha : IsAbs (Name h) = false).
  { destruct (IsAbs (Name h)) eqn:Ha; [|done].
    apply IsAbs_hasSlash in Ha. congruence. }
  assert (Hm : isMetadata h = false).
  { unfold isMetadata. apply String.eqb_neq in Hp. rewrite Hp. simpl.
    by apply isTopLevelDir_noslash. }
  rewrite (processHeader_renamed _ _ _ Hm Ha), (stripPrefix_noslash _ Hs).
  split; [done|]. split; [done|].
  unfold shouldSkipDockerIgnoredFile. simpl.
  destruct (Matches "" excl) as [b [e|]]; simpl; [done|done].
Qed.

Lemma C6_witness :
  stripPrefix "README" = ""
  /\ processHeader listMatcher [] (fileHeader "README")
     = (setName (fileHeader "README") "",
        shouldSkipDockerIgnoredFile listMatcher []
          (setName (fileHeader "README") ""))
  /\ (snd (listMatcher "" []) = None ->
      snd (snd (processHeader listMatcher [] (fileHeader "README"))) = None).
Proof.
  apply (C6_no_delimiter_renamed_to_empty listMatcher [] (fileHeader "README")).
  - reflexivity.
  - discriminate.
Defined.

(** ** Absolute names *)

Section Abort.

Variable Matches : string -> list string -> bool * option Error.
Variable tw : TarWriter.
Variable excl : list string.

Lemma pw_error_closeFunc e st :
  pw_closes st = 0 -> pw_error (closeFunc e st) = e.
Proof. unfold closeFunc. simpl. by intros ->. Qed.



End Abort.




Example absolute_path_truncates :
  let s := run [] (GzipTar (mkTarStream
             [fileEntry "repo/a.go"; fileEntry "/etc/passwd";
              fileEntry "repo/b.go"] None)) in
  emitted s = [mkOutEntry (fileHeader "a.go") []]
  /\ pw_error s = Some (ErrAbsolutePath "/etc/passwd").
Proof. by vm_compute. Qed.

(** A failure before the absolute name decides the error of the session. *)
Example earlier_failure_wins :
  pw_error (run ["["] (GzipTar (mkTarStream
              [fileEntry "repo/a.go"; fileEntry "/etc/passwd"] None)))
  = Some (ErrMatching "a.go").
Proof. by vm_compute. Qed.

(** ** The output of a well-formed archive *)

(** The test of [processHeader] for the top-level directory is the
    specification's. *)
Lemma isTopLevelDir_isBareTopDir s :
  isTopLevelDir (Split s slash) = isBareTopDir s.
Proof.
  induction s as [|c s IH]; simpl; [done|].
  pose proof (Split_nonempty s slash) as Hne.
  destruct (Ascii.eqb c slash).
  - pose proof (Join_Split s) as HJ.
    destruct (Split s slash) as [|x [|y l]] eqn:E; [done| |].
    + simpl in HJ. by subst x.
    + destruct s as [|d s]; [done|]. done.
  - destruct (Split s slash) as [|seg segs]; [done|].
    rewrite <- IH. by destruct segs as [|second [|third l]].
Qed.

Lemma isSynthetic_isMetadata h : isSynthetic h = isMetadata h.
Proof.
  unfold isSynthetic, isMetadata. by rewrite isTopLevelDir_isBareTopDir.
Qed.

Section WellFormed.

Variable Matches : string -> list string -> bool * option Error.
Variable tw : TarWriter.
Variable excl : list string.

Lemma emitted_emitAll outs st : emitted (emitAll outs st) = emitted st ++ outs.
Proof.
  revert st. induction outs as [|o outs IH]; intros st; simpl.
  - by rewrite app_nil_r.
  - unfold emitAll in IH. rewrite IH. simpl. by rewrite <- app_assoc.
Qed.

Lemma pw_closes_emitAll outs st : pw_closes (emitAll outs st) = pw_closes st.
Proof.
  revert st. induction outs as [|o outs IH]; intros st; [done|].
  simpl. unfold emitAll in IH. by rewrite IH.
Qed.

Lemma count_classes (ents : list SrcEntry) :
  List.length (List.filter (fun e => isKept Matches excl (hdr e)) ents)
  + countIf (fun e => isMetadata (hdr e)) ents
  + countIf (fun e => isExcluded Matches excl (hdr e)) ents
  = List.length ents.
Proof.
  unfold countIf. induction ents as [|ent rest IH]; [done|].
  simpl. unfold isKept at 1, isExcluded at 1.
  destruct (isMetadata (hdr ent)),
    (fst (Matches (stripPrefix (Name (hdr ent))) excl)); simpl; lia.
Qed.

Lemma survives_isKept h : survives Matches excl h = isKept Matches excl h.
Proof.
  unfold survives, isKept.
  by rewrite isSynthetic_isMetadata, stripPrefix_removeFirstSegment.
Qed.

Lemma matchesExclusion_isExcluded h :
  matchesExclusion Matches excl h = isExcluded Matches excl h.
Proof.
  unfold matchesExclusion, isExcluded.
  by rewrite isSynthetic_isMetadata, stripPrefix_removeFirstSegment.
Qed.

Lemma expectedEntry_outputOf e : expectedEntry e = outputOf e.
Proof.
  unfold expectedEntry, outputOf. by rewrite stripPrefix_removeFirstSegment.
Qed.

Lemma expectedOutput_fullOutput ents :
  expectedOutput Matches excl ents = fullOutput Matches excl ents.
Proof.
  unfold expectedOutput, fullOutput.
  induction ents as [|e ents IH]; [done|]. simpl.
  rewrite survives_isKept.
  destruct (isKept Matches excl (hdr e)); simpl;
    by rewrite ?expectedEntry_outputOf, IH.
Qed.

(** The loop over well-formed entries whose writes the writer accepts: it
    writes the whole output and closes with the end of the stream. *)
Lemma strippingLoop_accepted ents ending st :
  forallb (wellFormedSource Matches excl) ents = true ->
  acceptsOutput tw (emitted st) (fullOutput Matches excl ents) ->
  strippingLoop Matches tw excl ents ending st
  = closeFunc ending (emitAll (fullOutput Matches excl ents) st).
Proof.
  revert st. unfold fullOutput.
  induction ents as [|ent rest IH]; intros st Hwf Hacc; [done|].
  simpl in Hwf. apply andb_true_iff in Hwf as [Hent Hrest].
  unfold wellFormedSource in Hent.
  apply andb_true_iff in Hent as [[Hr Ha]%andb_true_iff HM].
  apply negb_true_iff in Ha.
  rewrite isSynthetic_isMetadata, <- stripPrefix_removeFirstSegment in HM.
  destruct (read_err ent) as [|] eqn:Hre; [done|].
  cbn [List.filter] in Hacc. cbn [strippingLoop List.filter].
  destruct (isMetadata (hdr ent)) eqn:Hm.
  { assert (Hk : isKept Matches excl (hdr ent) = false).
    { unfold isKept. by rewrite Hm. }
    rewrite Hk in Hacc |- *.
    rewrite (processHeader_metadata _ _ _ Hm Ha). by apply IH. }
  rewrite (processHeader_renamed _ _ _ Hm Ha).
  destruct (Matches (stripPrefix (Name (hdr ent))) excl) as [b err] eqn:Hv.
  simpl in HM. destruct err; [done|].
  rewrite (shouldSkip_verdict _ _ _ b) by done.
  assert (Hk : isKept Matches excl (hdr ent) = negb b).
  { unfold isKept. by rewrite Hm, Hv. }
  rewrite Hk in Hacc |- *.
  destruct b; [by apply IH|].
  cbn [negb map] in Hacc |- *.
  destruct Hacc as (Hh & Hw & Hf & Hacc).
  unfold io_Copy. unfold outputOf in Hh, Hw, Hf. simpl in Hh, Hw.
  rewrite Hh, Hw, Hre.
  change (emitted (emit ?o st)) with (emitted st ++ [o]).
  rewrite Hf. by apply IH.
Qed.

(** The session over a well-formed archive whose writes the writer
    accepts writes what the specification expects and ends cleanly. *)
Lemma startStrippingPipe_expected s :
  wellFormedArchive Matches excl s = true ->
  acceptsOutput tw [] (expectedOutput Matches excl (entries s)) ->
  emitted (startStrippingPipe Matches tw
             (newTarPrefixStripper (GzipTar s) excl))
  = expectedOutput Matches excl (entries s)
  /\ pw_error (startStrippingPipe Matches tw
                 (newTarPrefixStripper (GzipTar s) excl)) = None.
Proof.
  intros [Hents Hend]%andb_true_iff. rewrite expectedOutput_fullOutput.
  intros Hacc. unfold startStrippingPipe. simpl.
  destruct (ending s); [done|].
  rewrite (strippingLoop_accepted _ _ newSession Hents Hacc).
  rewrite emitted_closeFunc, emitted_emitAll. split; [done|].
  apply pw_error_closeFunc. by rewrite pw_closes_emitAll.
Qed.

End WellFormed.

(** ** Excluded entries *)

(** C5: an entry that is renamed and whose new name matches the patterns
    is omitted: the loop goes on with the next entry from the same state,
    and everything the session writes after that state is written for
    entries that follow it, so neither its header nor its payload is
    written and the session is not closed.  An entry whose new name does
    not match is written next, renamed header and whole payload, when the
    writer accepts it, and the loop goes on.  No emitted entry has a name
    that matches the patterns.  For a well-formed archive whose writes the
    writer accepts, the output is exactly the entries that are renamed and
    do not match, in order, and the session ends cleanly. *)
Theorem C5_excluded_entries_skipped Matches tw excl ent rest ending st :
  isSynthetic (hdr ent) = false ->
  IsAbs (Name (hdr ent)) = false ->
  let name' := removeFirstSegment (Name (hdr ent)) in
  (Matches name' excl = (true, None) ->
   strippingLoop Matches tw excl (ent :: rest) ending st
   = strippingLoop Matches tw excl rest ending st
   /\ exists kept outs,
        kept `sublist_of` rest
        /\ emitted (strippingLoop Matches tw excl (ent :: rest) ending st)
           = emitted st ++ outs
        /\ Forall2 (emits Matches excl) kept outs)
  /\ (Matches name' excl = (false, None) ->
      acceptsEntry tw st (setName (hdr ent) name') ent ->
      strippingLoop Matches tw excl (ent :: rest) ending st
      = strippingLoop Matches tw excl rest ending (emit (expectedEntry ent) st)
      /\ exists outs,
           emitted (strippingLoop Matches tw excl (ent :: rest) ending st)
           = emitted st ++ expectedEntry ent :: outs)
  /\ (forall t o,
        excludes t = excl ->
        o ∈ emitted (startStrippingPipe Matches tw t) ->
        Matches (Name (ohdr o)) excl = (false, None))
  /\ (forall s,
        wellFormedArchive Matches excl s = true ->
        acceptsOutput tw [] (expectedOutput Matches excl (entries s)) ->
        emitted (startStrippingPipe Matches tw
                   (newTarPrefixStripper (GzipTar s) excl))
        = expectedOutput Matches excl (entries s)
        /\ pw_error (startStrippingPipe Matches tw
                       (newTarPrefixStripper (GzipTar s) excl)) = None).
Proof.
  intros Hm Ha name'. rewrite isSynthetic_isMetadata in Hm.
  assert (Hn : name' = stripPrefix (Name (hdr ent))).
  { unfold name'. by rewrite stripPrefix_removeFirstSegment. }
  split; [|split; [|split]].
  - intros HM.
    assert (Heq : strippingLoop Matches tw excl (ent :: rest) ending st
                  = strippingLoop Matches tw excl rest ending st).
    { simpl. rewrite (processHeader_renamed _ _ _ Hm Ha), <- Hn.
      by rewrite (shouldSkip_verdict _ _ _ true). }
    split; [done|]. rewrite Heq. apply strippingLoop_trace.
  - intros HM (Hh & Hw & Hr & Hf).
    assert (Heq : strippingLoop Matches tw excl (ent :: rest) ending st
                  = strippingLoop Matches tw excl rest ending
                      (emit (expectedEntry ent) st)).
    { simpl. rewrite (processHeader_renamed _ _ _ Hm Ha), <- Hn.
      rewrite (shouldSkip_verdict _ _ _ false) by done.
      unfold io_Copy. rewrite Hh, Hw, Hr.
      change (emitted (emit ?o st)) with (emitted st ++ [o]).
      by rewrite Hf. }
    split; [done|]. rewrite Heq.
    destruct (strippingLoop_trace Matches tw excl rest ending
                (emit (expectedEntry ent) st)) as (_ & outs & _ & -> & _).
    exists outs. simpl. by rewrite <- app_assoc.
  - intros t o <- (src & _ & Hp & _)%emitted_from_source.
    apply processHeader_pass in Hp as (_ & _ & -> & HM). done.
  - intros s. apply startStrippingPipe_expected.
Qed.

Lemma C5_witness :
  let excl := ["debug.log"] in
  let rest := [fileEntry "repo/main.go"] in
  (strippingLoop listMatcher idealWriter excl
     (fileEntry "repo/debug.log" :: rest) None newSession
   = strippingLoop listMatcher idealWriter excl rest None newSession)
  /\ (exists outs,
        emitted (strippingLoop listMatcher idealWriter excl
                   (fileEntry "repo/main.go" :: []) None newSession)
        = emitted newSession ++ expectedEntry (fileEntry "repo/main.go") :: outs)
  /\ emitted (run excl (GzipTar (mkTarStream
                (fileEntry "repo/debug.log" :: rest) None)))
     = [mkOutEntry (fileHeader "main.go") []].
Proof.
  pose proof (C5_excluded_entries_skipped listMatcher idealWriter ["debug.log"]
                (fileEntry "repo/debug.log") [fileEntry "repo/main.go"] None
                newSession eq_refl eq_refl) as (Hskip & _ & _ & Hall).
  pose proof (C5_excluded_entries_skipped listMatcher idealWriter ["debug.log"]
                (fileEntry "repo/main.go") [] None
                newSession eq_refl eq_refl) as (_ & Hpass & _ & _).
  split; [exact (proj1 (Hskip eq_refl))|].
  split.
  - apply Hpass; [reflexivity|repeat split].
  - apply (Hall (mkTarStream
             [fileEntry "repo/debug.log"; fileEntry "repo/main.go"] None));
      [reflexivity|simpl; repeat split].
Defined.

Example log_entry_omitted :
  emitted (run ["debug.log"] (GzipTar (mkTarStream
     [fileEntry "pax_global_header"; fileEntry "repo/";
      fileEntry "repo/debug.log"; fileEntry "repo/main.go"] None)))
  = [mkOutEntry (fileHeader "main.go") []].
Proof. by vm_compute. Qed.

(** ** Counting the output of a well-formed archive *)

(** C3: for a well-formed archive of N entries, of which M are the
    metadata and synthetic entries (those named [pax_global_header] and
    those whose name is one segment followed by the delimiter) and E are
    renamed to a name that matches the exclusion patterns, written to a
    writer that accepts the writes of the run, the output has exactly
    N - M - E entries (and M + E is at most N). *)
Theorem C3_output_count Matches tw excl s :
  wellFormedArchive Matches excl s = true ->
  acceptsOutput tw [] (expectedOutput Matches excl (entries s)) ->
  let out := emitted (startStrippingPipe Matches tw
                        (newTarPrefixStripper (GzipTar s) excl)) in
  let N := List.length (entries s) in
  let M := countIf (fun e => isSynthetic (hdr e)) (entries s) in
  let E := countIf (fun e => matchesExclusion Matches excl (hdr e))
             (entries s) in
  M + E <= N /\ List.length out = N - M - E.
Proof.
  intros Hwf Hacc. cbv zeta.
  destruct (startStrippingPipe_expected Matches tw excl s Hwf Hacc) as [-> _].
  rewrite expectedOutput_fullOutput. unfold fullOutput, countIf.
  rewrite length_map.
  rewrite (List.filter_ext (fun e => isSynthetic (hdr e))
             (fun e => isMetadata (hdr e)))
    by (intros e; apply isSynthetic_isMetadata).
  rewrite (List.filter_ext (fun e => matchesExclusion Matches excl (hdr e))
             (fun e => isExcluded Matches excl (hdr e)))
    by (intros e; apply matchesExclusion_isExcluded).
  pose proof (count_classes Matches excl (entries s)) as Hc.
  unfold countIf in Hc. lia.
Qed.

Lemma C3_witness :
  let s := mkTarStream
     [fileEntry "pax_global_header"; fileEntry "repo/";
      fileEntry "repo/debug.log"; fileEntry "repo/main.go";
      fileEntry "repo/lib/util.go"] None in
  let out := emitted (run ["debug.log"] (GzipTar s)) in
  let N := List.length (entries s) in
  let M := countIf (fun e => isSynthetic (hdr e)) (entries s) in
  let E := countIf (fun e => matchesExclusion listMatcher ["debug.log"] (hdr e))
             (entries s) in
  M + E <= N /\ List.length out = N - M - E.
Proof.
  apply (C3_output_count listMatcher idealWriter ["debug.log"]).
  - reflexivity.
  - simpl. repeat split.
Defined.

Example count_five_entries :
  let s := mkTarStream
     [fileEntry "pax_global_header"; fileEntry "repo/";
      fileEntry "repo/debug.log"; fileEntry "repo/main.go";
      fileEntry "repo/lib/util.go"] None in
  List.length (emitted (run ["debug.log"] (GzipTar s))) = 2
  /\ countIf (fun e => isSynthetic (hdr e)) (entries s) = 2
  /\ countIf (fun e => matchesExclusion listMatcher ["debug.log"] (hdr e))
       (entries s) = 1.
Proof. by vm_compute. Qed.

(** ** Closing the streams *)

(** Once the compressed source is open, every path of the loop ends in
    [closeFunc]: the tar writer, the pipe and the source are each closed
    once more than before. *)
Lemma strippingLoop_closes Matches tw excl ents ending st :
  let fin := strippingLoop Matches tw excl ents ending st in
  tw_closes fin = S (tw_closes st)
  /\ pw_closes fin = S (pw_closes st)
  /\ src_closes fin = S (src_closes st).
Proof.
  revert st. induction ents as [|ent rest IH]; intros st; simpl; [done|].
  destruct (processHeader Matches excl (hdr ent)) as [header [skip [e|]]];
    [done|].
  destruct skip; [apply IH|].
  destruct (tw_WriteHeader tw (emitted st) header); [done|].
  destruct (io_Copy tw (emitted st) header ent) as [written [e|]]; [done|].
  destruct (tw_Flush tw _); [done|]. apply (IH (emit _ st)).
Qed.

(** C8 (evaluation at the failing input): when the compressed source
    cannot be opened the pipe is closed once with the error and the source
    stream is not closed at all, whereas every session that opens the
    source closes both exactly once. *)
Theorem C8_source_not_closed_on_gzip_failure Matches tw excl :
  (forall e,
     let fin := startStrippingPipe Matches tw
                  (newTarPrefixStripper (BadGzip e) excl) in
     src_closes fin = 0 /\ pw_closes fin = 1 /\ pw_error fin = Some e)
  /\ (forall s,
        let fin := startStrippingPipe Matches tw
                     (newTarPrefixStripper (GzipTar s) excl) in
        src_closes fin = 1 /\ pw_closes fin = 1).
Proof.
  split; [done|]. intros s. cbv zeta. unfold startStrippingPipe. simpl.
  destruct (strippingLoop_closes Matches tw excl (entries s) (ending s)
              newSession) as (_ & -> & ->). done.
Qed.

(** ** The ignore file *)

(** C9: when the get-file-content call fails with a 404 response, the
    patterns are the empty list and no error; [Get] goes on exactly as
    with an empty exclusion set, and the stripper it returns runs as one
    made with the empty exclusion set, in which a matcher that matches
    nothing against no pattern excludes no entry. *)
Theorem C9_absent_ignore_file_is_empty_set gh owner repo ref fc r e :
  GetContents gh owner repo dockerIgnorePath ref = (fc, Some r, Some e) ->
  StatusCode r = 404%Z ->
  parseDockerIgnoreIfExists gh owner repo ref = Return []
  /\ Get gh owner repo ref = getWithExcludes gh owner repo ref []
  /\ (forall t,
        Get gh owner repo ref = Return t ->
        excludes t = []
        /\ (forall Matches tw,
              startStrippingPipe Matches tw t
              = startStrippingPipe Matches tw
                  (newTarPrefixStripper (tarball t) []))
        /\ (forall Matches h,
              (forall file, fst (Matches file []) = false) ->
              isExcluded Matches (excludes t) h = false)).
Proof.
  intros HG Hs.
  assert (Hp : parseDockerIgnoreIfExists gh owner repo ref = Return []).
  { unfold parseDockerIgnoreIfExists. by rewrite HG, Hs. }
  assert (Hget : Get gh owner repo ref = getWithExcludes gh owner repo ref []).
  { unfold Get. by rewrite Hp. }
  split; [done|]. split; [done|].
  intros t Ht. rewrite Hget in Ht.
  assert (He : excludes t = []).
  { unfold getWithExcludes, getArchive in Ht.
    destruct (GetArchiveLink gh owner repo ref) as [[url resp] [?|]]; [done|].
    destruct resp as [r'|]; [|done].
    destruct (399 <? StatusCode r')%Z; [done|].
    destruct url as [u|]; [|done].
    destruct (NewRequest gh "GET" u); [done|].
    destruct (Do gh u) as [resp [?|]]; [done|].
    destruct resp as [r''|]; [|done].
    destruct (299 <? StatusCode r'')%Z; [done|].
    by injection Ht as <-. }
  split; [done|]. split.
  - intros Matches tw. destruct t as [tb ex]. simpl in He. by subst ex.
  - intros Matches h HM. unfold isExcluded. rewrite He, HM.
    by destruct (isMetadata h).
Qed.

Lemma C9_witness :
  let gh := remoteWithoutIgnoreFile (GzipTar (mkTarStream [] None)) in
  parseDockerIgnoreIfExists gh "o" "r" "main" = Return []
  /\ Get gh "o" "r" "main" = getWithExcludes gh "o" "r" "main" []
  /\ (forall t,
        Get gh "o" "r" "main" = Return t ->
        excludes t = []
        /\ (forall Matches tw,
              startStrippingPipe Matches tw t
              = startStrippingPipe Matches tw
                  (newTarPrefixStripper (tarball t) []))
        /\ (forall Matches h,
              (forall file, fst (Matches file []) = false) ->
              isExcluded Matches (excludes t) h = false)).
Proof.
  apply (C9_absent_ignore_file_is_empty_set
           (remoteWithoutIgnoreFile (GzipTar (mkTarStream [] None)))
           "o" "r" "main" None
           (mkResponse 404 "404 Not Found" (BadGzip (ErrExternal "EOF")))
           (ErrExternal "404 Not Found")).
  - reflexivity.
  - reflexivity.
Defined.

Example get_without_ignore_file :
  Get (remoteWithoutIgnoreFile (GzipTar (mkTarStream [] None))) "o" "r" "main"
  = Return (newTarPrefixStripper (GzipTar (mkTarStream [] None)) []).
Proof. reflexivity. Qed.

(** C10: when the get-file-content call returns an error, the error branch
    reads the status code of the response.  It returns (the empty set on a
    404, the descriptive error otherwise) exactly when the response is not
    nil; with a nil response it panics and returns no error value. *)
Theorem C10_error_branch_needs_response gh owner repo ref fc resp e :
  GetContents gh owner repo dockerIgnorePath ref = (fc, resp, Some e) ->
  let res := parseDockerIgnoreIfExists gh owner repo ref in
  (res <> Panic <-> resp <> None)
  /\ (forall r, resp = Some r ->
        res = if (StatusCode r =? 404)%Z then Return []
              else Fail (ErrGettingDockerignore e))
  /\ (resp = None -> res = Panic /\ forall e', res <> Fail e').
Proof.
  intros HG. cbv zeta. unfold parseDockerIgnoreIfExists. rewrite HG.
  destruct resp as [r|].
  - split; [|split].
    + by destruct (StatusCode r =? 404)%Z.
    + by intros ? [= <-].
    + done.
  - split; [|split]; [split; done|done|done].
Qed.

Lemma C10_witness :
  let res := parseDockerIgnoreIfExists remoteUnreachable "o" "r" "main" in
  (res <> Panic <-> @None Response <> None)
  /\ (forall r, None = Some r ->
        res = if (StatusCode r =? 404)%Z then Return []
              else Fail (ErrGettingDockerignore
                           (ErrExternal "dial tcp: i/o timeout")))
  /\ (@None Response = None -> res = Panic /\ forall e', res <> Fail e').
Proof.
  apply (C10_error_branch_needs_response remoteUnreachable "o" "r" "main"
           None None (ErrExternal "dial tcp: i/o timeout")).
  reflexivity.
Defined.

Example get_panics_when_unreachable :
  Get remoteUnreachable "o" "r" "main" = Panic.
Proof. reflexivity. Qed.

(** * Further properties of the rename *)

(** X1: wrapping a path under one top-level directory and renaming gives
    the path back, whatever the directory is called. *)
Theorem rename_unwraps_top_directory seg p :
  hasSlash seg = false ->
  stripPrefix (seg +:+ "/" +:+ p) = p.
Proof. intros Hseg. by apply (stripPrefix_segment seg p). Qed.

Lemma rename_unwraps_top_directory_witness :
  stripPrefix ("furan-0a1b2c" +:+ "/" +:+ "lib/github_fetch/github_fetch.go")
  = "lib/github_fetch/github_fetch.go".
Proof.
  apply (rename_unwraps_top_directory "furan-0a1b2c"
           "lib/github_fetch/github_fetch.go").
  reflexivity.
Defined.

(** X2: on a name with a delimiter the rename drops the first segment and
    keeps the others as they are, in order; a name without a delimiter is
    left with the single empty segment. *)
Theorem rename_keeps_other_segments s :
  (hasSlash s = true ->
   Split (stripPrefix s) slash = drop 1 (Split s slash))
  /\ (hasSlash s = false -> Split (stripPrefix s) slash = [""]).
Proof.
  split; intros Hs.
  - destruct (first_segment _ Hs) as (seg & rest & -> & Hseg).
    by rewrite stripPrefix_segment, Split_segment.
  - by rewrite stripPrefix_noslash.
Qed.

Lemma rename_keeps_other_segments_witness :
  Split (stripPrefix "repo/a/b.go") slash = drop 1 (Split "repo/a/b.go" slash)
  /\ Split (stripPrefix "README") slash = [""].
Proof.
  split.
  - apply (rename_keeps_other_segments "repo/a/b.go"). reflexivity.
  - apply (rename_keeps_other_segments "README"). reflexivity.
Defined.

(** X3: the top-level directory test holds exactly for the names made of
    one segment followed by one delimiter. *)
Theorem top_level_dir_iff name :
  isTopLevelDir (Split name slash) = true
  <-> exists seg, hasSlash seg = false /\ name = seg +:+ "/".
Proof.
  split.
  - intros Ht. destruct (hasSlash name) eqn:Hs.
    + destruct (first_segment _ Hs) as (seg & rest & -> & Hseg).
      exists seg. split; [done|]. f_equal.
      rewrite (Split_segment _ _ Hseg) in Ht.
      rewrite <- (Join_Split rest).
      destruct (Split rest slash) as [|x [|y l]]; simpl in Ht; try done.
      apply String.eqb_eq in Ht. by subst x.
    + by rewrite (Split_noslash _ Hs) in Ht.
  - intros (seg & Hseg & ->).
    change (seg +:+ "/") with (seg +:+ String slash "").
    by rewrite (Split_segment _ _ Hseg).
Qed.

(** X4: the new name is absolute exactly when the source name has an empty
    second segment, that is, reads [seg//rest]. *)
Theorem renamed_absolute_iff name :
  IsAbs (stripPrefix name) = true
  <-> exists seg rest, hasSlash seg = false /\ name = seg +:+ "//" +:+ rest.
Proof.
  split.
  - intros Ha. destruct (hasSlash name) eqn:Hs.
    + destruct (first_segment _ Hs) as (seg & rest & -> & Hseg).
      rewrite (stripPrefix_segment _ _ Hseg) in Ha.
      destruct rest as [|c rest]; [done|]. simpl in Ha.
      apply Ascii.eqb_eq in Ha as ->. by exists seg, rest.
    + by rewrite (stripPrefix_noslash _ Hs) in Ha.
  - intros (seg & rest & Hseg & ->).
    change (seg +:+ "//" +:+ rest)
      with (seg +:+ String slash (String slash rest)).
    by rewrite (stripPrefix_segment _ _ Hseg).
Qed.

Lemma removeFirstSegment_length s :
  String.length (removeFirstSegment s) <= String.length s
  /\ (s <> "" -> String.length (removeFirstSegment s) < String.length s).
Proof.
  induction s as [|c s [IH _]]; simpl; [split; [lia|done]|].
  destruct (Ascii.eqb c slash); split; intros; lia.
Qed.

(** X5: the rename never lengthens a name, and shortens every name that is
    not empty. *)
Theorem rename_shortens s :
  String.length (stripPrefix s) <= String.length s
  /\ (s <> "" -> String.length (stripPrefix s) < String.length s).
Proof. rewrite stripPrefix_removeFirstSegment. apply removeFirstSegment_length. Qed.

Lemma rename_shortens_witness :
  String.length (stripPrefix "repo/a.go") < String.length "repo/a.go".
Proof. apply (rename_shortens "repo/a.go"). discriminate. Defined.

(** * Further properties of the transform *)

Section Transform.

Variable Matches : string -> list string -> bool * option Error.
Variable tw : TarWriter.
Variable excl : list string.

Lemma shouldSkip_skip h :
  shouldSkipDockerIgnoredFile Matches excl h = (true, None) ->
  Matches (Name h) excl = (true, None).
Proof.
  unfold shouldSkipDockerIgnoredFile.
  destruct (Matches (Name h) excl) as [b [e|]]; [done|]. by intros [= ->].
Qed.

Lemma processHeader_skip_not_kept h h' :
  processHeader Matches excl h = (h', (true, None)) ->
  isKept Matches excl h = false.
Proof.
  intros Hp. unfold isKept.
  destruct (IsAbs (Name h)) eqn:Ha.
  { by rewrite (processHeader_absolute _ _ _ Ha) in Hp. }
  destruct (isMetadata h) eqn:Hm; [done|].
  rewrite (processHeader_renamed _ _ _ Hm Ha) in Hp.
  injection Hp as _ Hs. apply shouldSkip_skip in Hs. simpl in Hs.
  by rewrite Hs.
Qed.

Lemma processHeader_pass_kept h h' :
  processHeader Matches excl h = (h', (false, None)) ->
  isKept Matches excl h = true /\ h' = setName h (stripPrefix (Name h)).
Proof.
  intros (Hm & _ & -> & HM)%processHeader_pass.
  unfold isKept. by rewrite Hm, HM.
Qed.

Lemma io_Copy_complete out header ent written :
  io_Copy tw out header ent = (written, None) -> written = payload ent.
Proof.
  unfold io_Copy. destruct (tw_Write tw out header (payload ent)) as [[n e]|].
  - done.
  - by intros [= <- _].
Qed.

(** A session that ends without an error has written the whole output. *)
Lemma strippingLoop_clean_complete ents ending st :
  pw_closes st = 0 ->
  pw_error (strippingLoop Matches tw excl ents ending st) = None ->
  ending = None
  /\ emitted (strippingLoop Matches tw excl ents ending st)
     = emitted st ++ fullOutput Matches excl ents.
Proof.
  revert st. induction ents as [|ent rest IH]; intros st Hst;
    cbn [strippingLoop].
  { rewrite (pw_error_closeFunc _ _ Hst). intros ->.
    by rewrite emitted_closeFunc, app_nil_r. }
  unfold fullOutput. cbn [List.filter].
  destruct (processHeader Matches excl (hdr ent)) as [header [skip [e|]]] eqn:Hp.
  { by rewrite (pw_error_closeFunc _ _ Hst). }
  destruct skip.
  { rewrite (processHeader_skip_not_kept _ _ Hp). by apply IH. }
  destruct (processHeader_pass_kept _ _ Hp) as [-> ->].
  destruct (tw_WriteHeader tw (emitted st) _) as [e|].
  { by rewrite (pw_error_closeFunc _ _ Hst). }
  destruct (io_Copy tw (emitted st) _ ent) as [written [e|]] eqn:Hc.
  { by rewrite pw_error_closeFunc. }
  apply io_Copy_complete in Hc as ->.
  destruct (tw_Flush tw _) as [e|].
  { by rewrite pw_error_closeFunc. }
  intros Hfin. destruct (IH (emit _ st) Hst Hfin) as [-> ->].
  split; [done|]. simpl. by rewrite <- app_assoc.
Qed.

(** What a session has written is a beginning of the whole output, the
    last entry possibly with a shorter payload. *)
Lemma strippingLoop_prefix ents ending st :
  exists full outs,
    emitted (strippingLoop Matches tw excl ents ending st) = emitted st ++ outs
    /\ full `prefix_of` fullOutput Matches excl ents
    /\ Forall2 truncates full outs.
Proof.
  revert st. induction ents as [|ent rest IH]; intros st; simpl.
  { exists [], []. rewrite app_nil_r. split; [done|]. split; [done|constructor]. }
  assert (Hnone : forall e,
    exists full outs,
      emitted (closeFunc e st) = emitted st ++ outs
      /\ full `prefix_of` fullOutput Matches excl (ent :: rest)
      /\ Forall2 truncates full outs).
  { intros e. exists [], []. rewrite app_nil_r.
    split; [done|]. split; [apply prefix_nil|constructor]. }
  unfold fullOutput. cbn [List.filter].
  destruct (processHeader Matches excl (hdr ent)) as [header [skip [e|]]] eqn:Hp.
  { apply Hnone. }
  destruct skip.
  { rewrite (processHeader_skip_not_kept _ _ Hp). apply IH. }
  destruct (processHeader_pass_kept _ _ Hp) as [Hk ->].
  destruct (tw_WriteHeader tw (emitted st) _) as [e|].
  { apply Hnone. }
  rewrite Hk. cbn [map].
  destruct (io_Copy tw (emitted st) _ ent) as [written cerr] eqn:Hc.
  set (o := mkOutEntry (setName (hdr ent) (stripPrefix (Name (hdr ent))))
              written).
  assert (Ht : truncates (outputOf ent) o).
  { split; [done|]. simpl. by eapply io_Copy_prefix. }
  assert (Hone : forall e st0,
    emitted st0 = emitted st ++ [o] ->
    exists full outs,
      emitted (closeFunc e st0) = emitted st ++ outs
      /\ full `prefix_of` outputOf ent
           :: map outputOf
                (List.filter (fun e => isKept Matches excl (hdr e)) rest)
      /\ Forall2 truncates full outs).
  { intros e st0 Heq. exists [outputOf ent], [o].
    split; [done|]. split; [|by constructor].
    apply prefix_cons, prefix_nil. }
  destruct cerr as [e|]; [by apply Hone|].
  destruct (tw_Flush tw _) as [e|]; [by apply Hone|].
  destruct (IH (emit o st)) as (full & outs & Heq & Hpre & HF).
  exists (outputOf ent :: full), (o :: outs).
  split; [rewrite Heq; simpl; by rewrite <- app_assoc|].
  split; [by apply prefix_cons|by constructor].
Qed.

(** With well-formed entries and a writer that accepts every write the
    loop writes the whole output and closes with the end of the stream. *)
Lemma strippingLoop_wellFormed_ending ents ending st :
  healthy tw ->
  forallb (wellFormedEntry Matches excl) ents = true ->
  strippingLoop Matches tw excl ents ending st
  = closeFunc ending (emitAll (fullOutput Matches excl ents) st).
Proof.
  intros (Hh & Hw & Hf). revert st. unfold fullOutput.
  induction ents as [|ent rest IH]; intros st Hwf; [done|].
  simpl in Hwf. apply andb_true_iff in Hwf as [Hent Hrest].
  unfold wellFormedEntry in Hent.
  apply andb_true_iff in Hent as [[Hr Ha]%andb_true_iff HM].
  apply negb_true_iff in Ha.
  destruct (read_err ent) as [|] eqn:Hre; [done|].
  cbn [strippingLoop List.filter]. unfold isKept at 1.
  destruct (isMetadata (hdr ent)) eqn:Hm.
  { rewrite (processHeader_metadata _ _ _ Hm Ha). simpl. by apply IH. }
  rewrite (processHeader_renamed _ _ _ Hm Ha).
  destruct (Matches (stripPrefix (Name (hdr ent))) excl) as [b err] eqn:Hv.
  simpl in HM. destruct err; [done|].
  rewrite (shouldSkip_verdict _ _ _ b) by done.
  destruct b; simpl; [by apply IH|].
  unfold io_Copy. rewrite Hh, Hw, Hre, Hf. by apply IH.
Qed.

(** A session over [pre ++ ent :: post] where [processHeader] fails on
    [ent], compared with the session over [pre] alone. *)
Lemma strippingLoop_header_failure pre ent post ending st h' b e :
  processHeader Matches excl (hdr ent) = (h', (b, Some e)) ->
  pw_closes st = 0 ->
  emitted (strippingLoop Matches tw excl (pre ++ ent :: post) ending st)
  = emitted (strippingLoop Matches tw excl pre None st)
  /\ pw_error (strippingLoop Matches tw excl (pre ++ ent :: post) ending st)
     = match pw_error (strippingLoop Matches tw excl pre None st) with
       | None => Some e
       | Some e' => Some e'
       end.
Proof.
  intros Hp. revert st. induction pre as [|x pre IH]; intros st Hst.
  { rewrite app_nil_l. simpl. rewrite Hp. simpl. by rewrite Hst. }
  rewrite <- app_comm_cons. simpl.
  destruct (processHeader Matches excl (hdr x)) as [header [skip [e'|]]].
  { by rewrite emitted_closeFunc, pw_error_closeFunc. }
  destruct skip; [by apply IH|].
  destruct (tw_WriteHeader tw (emitted st) header) as [e'|].
  { by rewrite emitted_closeFunc, pw_error_closeFunc. }
  destruct (io_Copy tw (emitted st) header x) as [written [e'|]].
  { by rewrite emitted_closeFunc, pw_error_closeFunc. }
  destruct (tw_Flush tw _) as [e'|].
  { by rewrite emitted_closeFunc, pw_error_closeFunc. }
  by apply IH.
Qed.

End Transform.

(** X6: every emitted entry is written for a source entry that is neither
    the pseudo-metadata header nor the top-level directory; only the name
    of the header is rewritten (type, size and mode are those of the
    source entry) and the payload is copied from that entry. *)
Theorem only_name_rewritten Matches tw t o :
  o ∈ emitted (startStrippingPipe Matches tw t) ->
  exists src,
    src ∈ sourceEntries (tarball t)
    /\ isMetadata (hdr src) = false
    /\ Typeflag (ohdr o) = Typeflag (hdr src)
    /\ Size (ohdr o) = Size (hdr src)
    /\ Mode (ohdr o) = Mode (hdr src)
    /\ opayload o `prefix_of` payload src.
Proof.
  intros (src & Hin & Hp & Hpay)%emitted_from_source.
  apply processHeader_pass in Hp as (Hm & _ & -> & _).
  by exists src.
Qed.

Lemma only_name_rewritten_witness :
  exists src,
    src ∈ [fileEntry "pax_global_header"; fileEntry "repo/main.go"]
    /\ isMetadata (hdr src) = false
    /\ Typeflag (fileHeader "main.go") = Typeflag (hdr src)
    /\ Size (fileHeader "main.go") = Size (hdr src)
    /\ Mode (fileHeader "main.go") = Mode (hdr src)
    /\ [] `prefix_of` payload src.
Proof.
  apply (only_name_rewritten listMatcher idealWriter
    (newTarPrefixStripper
       (GzipTar (mkTarStream
          [fileEntry "pax_global_header"; fileEntry "repo/main.go"] None)) [])
    (mkOutEntry (fileHeader "main.go") [])).
  vm_compute. apply list_elem_of_here.
Defined.

(** X7: the pseudo-metadata header and the top-level directory are skipped
    before the exclusion test: whatever the patterns are and whatever the
    matcher would answer, the loop goes on from the same state. *)
Theorem metadata_skipped_before_matching Matches tw excl ent rest ending st :
  isMetadata (hdr ent) = true ->
  IsAbs (Name (hdr ent)) = false ->
  strippingLoop Matches tw excl (ent :: rest) ending st
  = strippingLoop Matches tw excl rest ending st.
Proof.
  intros Hm Ha. simpl. by rewrite (processHeader_metadata _ _ _ Hm Ha).
Qed.

Lemma metadata_skipped_before_matching_witness :
  strippingLoop listMatcher idealWriter ["["]
    (fileEntry "repo/" :: []) None newSession
  = strippingLoop listMatcher idealWriter ["["] [] None newSession.
Proof.
  apply (metadata_skipped_before_matching listMatcher idealWriter ["["]
           (fileEntry "repo/") [] None newSession); reflexivity.
Defined.

(** X8: when the producer closes the pipe with a nil error, the source
    opened as gzip and its entries ended with the end of the stream, and
    the output is the whole output: every kept entry, in order, with its
    whole payload. *)
Theorem nil_close_means_complete_output Matches tw t :
  pw_error (startStrippingPipe Matches tw t) = None ->
  exists s,
    tarball t = GzipTar s
    /\ ending s = None
    /\ emitted (startStrippingPipe Matches tw t)
       = fullOutput Matches (excludes t) (entries s).
Proof.
  unfold startStrippingPipe. destruct (tarball t) as [e|s]; [done|].
  intros Hfin. exists s. split; [done|].
  by apply (strippingLoop_clean_complete Matches tw (excludes t)
              (entries s) (ending s) newSession).
Qed.

Lemma nil_close_means_complete_output_witness :
  let t := newTarPrefixStripper
             (GzipTar (mkTarStream
                [fileEntry "repo/"; fileEntry "repo/main.go"] None)) [] in
  exists s,
    tarball t = GzipTar s
    /\ ending s = None
    /\ emitted (startStrippingPipe listMatcher idealWriter t)
       = fullOutput listMatcher (excludes t) (entries s).
Proof.
  apply (nil_close_means_complete_output listMatcher idealWriter
    (newTarPrefixStripper
       (GzipTar (mkTarStream
          [fileEntry "repo/"; fileEntry "repo/main.go"] None)) [])).
  reflexivity.
Defined.

(** X9: whatever happens, what a session has written is a beginning of the
    whole output: the kept entries in order with no gap, each with its
    renamed header, and a payload that is the source payload or its first
    bytes. *)
Theorem output_is_beginning_of_full_output Matches tw t :
  exists full,
    full `prefix_of` fullOutput Matches (excludes t) (sourceEntries (tarball t))
    /\ Forall2 truncates full (emitted (startStrippingPipe Matches tw t)).
Proof.
  unfold startStrippingPipe. destruct (tarball t) as [e|s]; simpl.
  { exists []. split; [apply prefix_nil|constructor]. }
  destruct (strippingLoop_prefix Matches tw (excludes t) (entries s) (ending s)
              newSession) as (full & outs & -> & Hpre & HF).
  by exists full.
Qed.

(** X10: when the entries are well formed and the writer accepts every
    write, a decode error of the source after them is the error of the
    session, and everything before it has been written in full; the clean
    end is the case of no error. *)
Theorem decode_error_after_entries Matches tw excl s :
  healthy tw ->
  forallb (wellFormedEntry Matches excl) (entries s) = true ->
  let fin := startStrippingPipe Matches tw
               (newTarPrefixStripper (GzipTar s) excl) in
  emitted fin = fullOutput Matches excl (entries s)
  /\ pw_error fin = ending s.
Proof.
  intros Htw Hwf. cbv zeta. unfold startStrippingPipe. simpl.
  rewrite (strippingLoop_wellFormed_ending _ _ _ _ _ _ Htw Hwf).
  rewrite emitted_closeFunc, emitted_emitAll. split; [done|].
  apply pw_error_closeFunc.
  generalize (fullOutput Matches excl (entries s)).
  intros outs. generalize newSession, (eq_refl : pw_closes newSession = 0).
  induction outs as [|o outs IH]; intros st Hst; [done|]. by apply IH.
Qed.

Lemma decode_error_after_entries_witness :
  let s := mkTarStream [fileEntry "repo/"; fileEntry "repo/main.go"]
             (Some (ErrExternal "unexpected EOF")) in
  let fin := startStrippingPipe listMatcher idealWriter
               (newTarPrefixStripper (GzipTar s) []) in
  emitted fin = fullOutput listMatcher [] (entries s)
  /\ pw_error fin = ending s.
Proof.
  apply (decode_error_after_entries listMatcher idealWriter []
           (mkTarStream [fileEntry "repo/"; fileEntry "repo/main.go"]
              (Some (ErrExternal "unexpected EOF")))).
  - repeat split.
  - reflexivity.
Defined.

(** X11: when the matcher fails on the new name of an entry, nothing at or
    after that entry is written and what was written before stays; unless
    an earlier entry already failed, the session ends with the matching
    error, which carries the new name and not the matcher's own error. *)
Theorem matcher_failure_aborts Matches tw excl pre ent post ending e0 :
  isMetadata (hdr ent) = false ->
  IsAbs (Name (hdr ent)) = false ->
  snd (Matches (stripPrefix (Name (hdr ent))) excl) = Some e0 ->
  let full := startStrippingPipe Matches tw
    (newTarPrefixStripper (GzipTar (mkTarStream (pre ++ ent :: post) ending))
       excl) in
  let before := startStrippingPipe Matches tw
    (newTarPrefixStripper (GzipTar (mkTarStream pre None)) excl) in
  emitted full = emitted before
  /\ (pw_error before = None ->
      pw_error full = Some (ErrMatching (stripPrefix (Name (hdr ent))))).
Proof.
  intros Hm Ha HM. cbv zeta. unfold startStrippingPipe. simpl.
  assert (Hp : processHeader Matches excl (hdr ent)
               = (setName (hdr ent) (stripPrefix (Name (hdr ent))),
                  (false, Some (ErrMatching (stripPrefix (Name (hdr ent))))))).
  { rewrite (processHeader_renamed _ _ _ Hm Ha).
    unfold shouldSkipDockerIgnoredFile. simpl.
    destruct (Matches (stripPrefix (Name (hdr ent))) excl) as [b err].
    simpl in HM. by rewrite HM. }
  destruct (strippingLoop_header_failure Matches tw excl pre ent post ending
              newSession _ _ _ Hp eq_refl) as [He Herr].
  split; [done|]. intros Hb. by rewrite Herr, Hb.
Qed.

Lemma matcher_failure_aborts_witness :
  let pre := [fileEntry "pax_global_header"] in
  let full := run ["["] (GzipTar (mkTarStream
                (pre ++ fileEntry "repo/a.go" :: [fileEntry "repo/b.go"]) None)) in
  let before := run ["["] (GzipTar (mkTarStream pre None)) in
  emitted full = emitted before
  /\ (pw_error before = None -> pw_error full = Some (ErrMatching "a.go")).
Proof.
  apply (matcher_failure_aborts listMatcher idealWriter ["["]
           [fileEntry "pax_global_header"] (fileEntry "repo/a.go")
           [fileEntry "repo/b.go"] None
           (ErrExternal "syntax error in pattern")); reflexivity.
Defined.

(** * Further properties of the fetch *)

(** X12: when the exclusion patterns cannot be obtained, [Get] fails with
    that error wrapped, whatever the archive-link call and the download
    would have returned: the result is the same for every remote that
    answers the ignore-file call and parses its content alike. *)
Theorem get_stops_at_ignore_file_error gh gh' owner repo ref e :
  GetContents gh' owner repo dockerIgnorePath ref
  = GetContents gh owner repo dockerIgnorePath ref ->
  (forall content, ReadAll gh' content = ReadAll gh content) ->
  parseDockerIgnoreIfExists gh owner repo ref = Fail e ->
  Get gh owner repo ref = Fail (ErrParsingFile e)
  /\ Get gh' owner repo ref = Fail (ErrParsingFile e).
Proof.
  intros HG HR Hp.
  assert (Hp' : parseDockerIgnoreIfExists gh' owner repo ref = Fail e).
  { revert Hp. unfold parseDockerIgnoreIfExists. rewrite HG.
    destruct (GetContents gh owner repo dockerIgnorePath ref)
      as [[fc resp] [err|]]; [done|].
    destruct fc as [c|]; [|done].
    destruct (GetContent c) as [content [err|]]; [done|]. by rewrite HR. }
  unfold Get. by rewrite Hp, Hp'.
Qed.

Lemma get_stops_at_ignore_file_error_witness :
  let e := ErrGettingDockerignore (ErrExternal "unexpected status") in
  Get (remoteIgnoreFileStatus 500 (GzipTar (mkTarStream [] None)))
    "o" "r" "main" = Fail (ErrParsingFile e)
  /\ Get (remoteIgnoreFileStatus 500 (BadGzip (ErrExternal "EOF")))
       "o" "r" "main" = Fail (ErrParsingFile e).
Proof.
  apply (get_stops_at_ignore_file_error
           (remoteIgnoreFileStatus 500 (GzipTar (mkTarStream [] None)))
           (remoteIgnoreFileStatus 500 (BadGzip (ErrExternal "EOF")))
           "o" "r" "main"); reflexivity.
Defined.

(** X13: [Get] returns a stripper exactly when the patterns were obtained,
    the archive-link call gave a URL with a status of at most 399, the
    request could be built and the download gave a response with a status
    of at most 299; the stripper then reads the body of that response and
    carries those patterns. *)
Theorem get_returns_iff gh owner repo ref t :
  Get gh owner repo ref = Return t
  <-> exists excl u r1 r2,
        parseDockerIgnoreIfExists gh owner repo ref = Return excl
        /\ GetArchiveLink gh owner repo ref = (Some u, Some r1, None)
        /\ (StatusCode r1 <= 399)%Z
        /\ NewRequest gh "GET" u = None
        /\ Do gh u = (Some r2, None)
        /\ (StatusCode r2 <= 299)%Z
        /\ t = newTarPrefixStripper (Body r2) excl.
Proof.
  unfold Get, getWithExcludes, getArchive. split.
  - destruct (parseDockerIgnoreIfExists gh owner repo ref) as [excl|e|];
      [|done|done].
    destruct (GetArchiveLink gh owner repo ref) as [[url resp] [e|]]; [done|].
    destruct resp as [r1|]; [|done].
    destruct (399 <? StatusCode r1)%Z eqn:H1; [done|].
    destruct url as [u|]; [|done].
    destruct (NewRequest gh "GET" u) eqn:Hreq; [done|].
    destruct (Do gh u) as [resp [e|]] eqn:Hdo; [done|].
    destruct resp as [r2|]; [|done].
    destruct (299 <? StatusCode r2)%Z eqn:H2; [done|].
    intros [= <-]. exists excl, u, r1, r2.
    apply Z.ltb_ge in H1, H2. done.
  - intros (excl & u & r1 & r2 & -> & -> & H1 & Hreq & Hdo & H2 & ->).
    apply Z.ltb_ge in H1, H2. by rewrite H1, Hreq, Hdo, H2.
Qed.

Lemma getWithExcludes_panics_iff gh owner repo ref excl :
  getWithExcludes gh owner repo ref excl = Panic
  <-> exists url, GetArchiveLink gh owner repo ref = (url, None, None).
Proof.
  unfold getWithExcludes, getArchive.
  destruct (GetArchiveLink gh owner repo ref) as [[url resp] [e|]].
  { split; [done|]. by intros (? & [=]). }
  destruct resp as [r|]; [|split; [by exists url|done]].
  split; [|by intros (? & [=])].
  destruct (399 <? StatusCode r)%Z; [done|].
  destruct url as [u|]; [|done].
  destruct (NewRequest gh "GET" u); [done|].
  destruct (Do gh u) as [[r'|] [e|]]; try done.
  by destruct (299 <? StatusCode r')%Z.
Qed.

Lemma parseDockerIgnoreIfExists_panics_iff gh owner repo ref :
  parseDockerIgnoreIfExists gh owner repo ref = Panic
  <-> (exists fc e,
         GetContents gh owner repo dockerIgnorePath ref = (fc, None, Some e))
      \/ (exists resp,
            GetContents gh owner repo dockerIgnorePath ref = (None, resp, None)).
Proof.
  unfold parseDockerIgnoreIfExists.
  destruct (GetContents gh owner repo dockerIgnorePath ref)
    as [[fc resp] [e|]].
  - destruct resp as [r|].
    + split; [by destruct (StatusCode r =? 404)%Z|].
      by intros [(? & ? & [=])|(? & [=])].
    + split; [|done]. intros _. left. by exists fc, e.
  - destruct fc as [c|].
    + split; [|by intros [(? & ? & [=])|(? & [=])]].
      destruct (GetContent c) as [content [e|]]; [done|].
      by destruct (ReadAll gh content) as [excl [e|]].
    + split; [|done]. intros _. right. by exists resp.
Qed.

(** X14: [Get] dereferences a nil pointer in exactly three cases: the
    ignore-file call returns an error and no response; it returns no error
    and no file content; or, once the patterns are known, the
    archive-link call returns no error and no response. *)
Theorem get_panics_iff gh owner repo ref :
  Get gh owner repo ref = Panic
  <-> (exists fc e,
         GetContents gh owner repo dockerIgnorePath ref = (fc, None, Some e))
      \/ (exists resp,
            GetContents gh owner repo dockerIgnorePath ref = (None, resp, None))
      \/ (exists excl url,
            parseDockerIgnoreIfExists gh owner repo ref = Return excl
            /\ GetArchiveLink gh owner repo ref = (url, None, None)).
Proof.
  pose proof (parseDockerIgnoreIfExists_panics_iff gh owner repo ref) as HP.
  unfold Get.
  destruct (parseDockerIgnoreIfExists gh owner repo ref) as [excl|e|].
  - rewrite getWithExcludes_panics_iff. split.
    + intros [url Hurl]. right. right. by exists excl, url.
    + intros [H|[H|(? & url & _ & Hurl)]]; [| |by exists url].
      * assert (Hc : @Return (list string) excl = Panic) by (apply HP; by left).
        done.
      * assert (Hc : @Return (list string) excl = Panic) by (apply HP; by right).
        done.
  - split; [done|].
    intros [H|[H|(? & ? & [=] & _)]].
    + assert (Hc : @Fail (list string) e = Panic) by (apply HP; by left). done.
    + assert (Hc : @Fail (list string) e = Panic) by (apply HP; by right). done.
  - split; [|done]. intros _.
    destruct (proj1 HP eq_refl) as [H|H]; [by left|right; by left].
Qed.

Lemma getWithExcludes_excludes gh owner repo ref excl t :
  getWithExcludes gh owner repo ref excl = Return t -> excludes t = excl.
Proof.
  unfold getWithExcludes, getArchive.
  destruct (GetArchiveLink gh owner repo ref) as [[url resp] [?|]]; [done|].
  destruct resp as [r|]; [|done].
  destruct (399 <? StatusCode r)%Z; [done|].
  destruct url as [u|]; [|done].
  destruct (NewRequest gh "GET" u); [done|].
  destruct (Do gh u) as [[r'|] [?|]]; try done.
  destruct (299 <? StatusCode r')%Z; [done|]. by intros [= <-].
Qed.

(** X16: when the ignore file is there, its content is read and the
    patterns parsed from it are the ones [Get] gives to the stripper it
    returns. *)
Theorem ignore_file_patterns_reach_stripper
    gh owner repo ref c resp content patterns :
  GetContents gh owner repo dockerIgnorePath ref = (Some c, resp, None) ->
  GetContent c = (content, None) ->
  ReadAll gh content = (patterns, None) ->
  parseDockerIgnoreIfExists gh owner repo ref = Return patterns
  /\ Get gh owner repo ref = getWithExcludes gh owner repo ref patterns
  /\ (forall t, Get gh owner repo ref = Return t -> excludes t = patterns).
Proof.
  intros HG HC HR.
  assert (Hp : parseDockerIgnoreIfExists gh owner repo ref = Return patterns).
  { unfold parseDockerIgnoreIfExists. by rewrite HG, HC, HR. }
  split; [done|]. unfold Get. rewrite Hp. split; [done|].
  intros t. apply getWithExcludes_excludes.
Qed.

Lemma ignore_file_patterns_reach_stripper_witness :
  let gh := remoteWithIgnoreFile (GzipTar (mkTarStream [] None)) in
  parseDockerIgnoreIfExists gh "o" "r" "main" = Return ["*.log"]
  /\ Get gh "o" "r" "main" = getWithExcludes gh "o" "r" "main" ["*.log"]
  /\ (forall t, Get gh "o" "r" "main" = Return t -> excludes t = ["*.log"]).
Proof.
  apply (ignore_file_patterns_reach_stripper
           (remoteWithIgnoreFile (GzipTar (mkTarStream [] None)))
           "o" "r" "main"
           (mkRepositoryContent ("*.log", None))
           (Some (mkResponse 200 "200 OK" (BadGzip (ErrExternal "EOF"))))
           "*.log" ["*.log"]); reflexivity.
Defined.

(** X17: of the errors of the ignore-file call that come with a response,
    only the one with status 404 is tolerated: with any other status [Get]
    fails with that error, wrapped twice, and never returns a stripper. *)
Theorem only_404_is_tolerated gh owner repo ref fc r e :
  GetContents gh owner repo dockerIgnorePath ref = (fc, Some r, Some e) ->
  StatusCode r <> 404%Z ->
  parseDockerIgnoreIfExists gh owner repo ref = Fail (ErrGettingDockerignore e)
  /\ Get gh owner repo ref
     = Fail (ErrParsingFile (ErrGettingDockerignore e)).
Proof.
  intros HG Hs.
  assert (Hp : parseDockerIgnoreIfExists gh owner repo ref
               = Fail (ErrGettingDockerignore e)).
  { unfold parseDockerIgnoreIfExists. rewrite HG.
    apply Z.eqb_neq in Hs. by rewrite Hs. }
  split; [done|]. unfold Get. by rewrite Hp.
Qed.

Lemma only_404_is_tolerated_witness :
  let gh := remoteIgnoreFileStatus 403 (GzipTar (mkTarStream [] None)) in
  let e := ErrExternal "unexpected status" in
  parseDockerIgnoreIfExists gh "o" "r" "main"
  = Fail (ErrGettingDockerignore e)
  /\ Get gh "o" "r" "main"
     = Fail (ErrParsingFile (ErrGettingDockerignore e)).
Proof.
  apply (only_404_is_tolerated
           (remoteIgnoreFileStatus 403 (GzipTar (mkTarStream [] None)))
           "o" "r" "main" None
           (mkResponse 403 "error" (BadGzip (ErrExternal "EOF")))
           (ErrExternal "unexpected status")).
  - reflexivity.
  - discriminate.
Defined.

(** * The lazy start of the producer *)

(** X15: no producer is started before the first read, and exactly one is
    started by the first read, however many reads follow; the stripper
    itself is not changed by reading. *)
Theorem producer_started_once tarball excludes n :
  let t := Nat.iter n Read (newLazyStripper tarball excludes) in
  producers t = (if Nat.eqb n 0 then 0 else 1)
  /\ strippingStarted t = negb (Nat.eqb n 0)
  /\ stripper t = newTarPrefixStripper tarball excludes.
Proof.
  cbv zeta. induction n as [|n (Hp & Hs & Ht)]; [done|].
  change (Nat.iter (S n) Read (newLazyStripper tarball excludes))
    with (Read (Nat.iter n Read (newLazyStripper tarball excludes))).
  set (t := Nat.iter n Read (newLazyStripper tarball excludes)) in *.
  unfold Read. rewrite Hs.
  destruct (Nat.eqb n 0); simpl; [|done].
  by rewrite Hp, Ht.
Qed.
